(** * specklepy.objects.units: the unit registry

    A shallow embedding of [src/specklepy/objects/units.py]: the [Units]
    enumeration, the three module-level tables ([UNITS_STRINGS],
    [UNITS_ENCODINGS], [UNIT_SCALE]) and the lookup and conversion functions
    built on them, followed by the properties of the registry.

    Modelling conventions.
    - A Python [dict] literal is an association list in insertion order: the
      functions iterate over [.items()], and the order decides which entry a
      loop meets first.
    - A Python [str] is the [string] of its UTF-8 bytes, which is what a
      string literal of this file denotes; two strs are equal exactly when
      their UTF-8 encodings are.
    - A Python [float] is a binary64 [float] of [PrimFloat]; [/] on numbers
      is IEEE division after the conversion of an [int] operand.
    - A raised exception is the [raise] branch of [result]. *)

From Stdlib Require Import List String Ascii ZArith Bool Lia.
From Stdlib Require Import PrimFloat SpecFloat FloatOps.
Import ListNotations.

Set Warnings "-inexact-float".

Local Open Scope string_scope.
Local Open Scope Z_scope.

(** ** The enumeration *)

Module Units.

(** [class Units(Enum)], members in declaration order. *)
Inductive t : Set :=
| mm | cm | m | km | inches | feet | yards | miles | none
| sqm | cbm | percent | watts | watts_per_sqm | liters_per_sec_sqm.

(** The [value] of each member. *)
Definition value (u : t) : string :=
  match u with
  | mm => "mm" | cm => "cm" | m => "m" | km => "km"
  | inches => "in" | feet => "ft" | yards => "yd" | miles => "mi"
  | none => "none"
  | sqm => "m²" | cbm => "m³" | percent => "%"
  | watts => "W" | watts_per_sqm => "W/m²"
  | liters_per_sec_sqm => "L/(s·m²)"
  end.

Definition eq_dec (a b : t) : {a = b} + {a <> b}.
Proof. decide equality. Defined.

Definition eqb (a b : t) : bool := if eq_dec a b then true else false.

(** Every member, in declaration order ([list(Units)]). *)
Definition members : list t :=
  [mm; cm; m; km; inches; feet; yards; miles; none;
   sqm; cbm; percent; watts; watts_per_sqm; liters_per_sec_sqm].

End Units.

(** ** Python values and exceptions *)

(** The values the functions of the module are called with: [None], an
    [int], a [str] or a member of [Units]. *)
Inductive pyval : Set :=
| VNone
| VInt (n : Z)
| VStr (s : string)
| VUnits (u : Units.t).

(** A number stored in [UNIT_SCALE]: the entry of [Units.none] is the [int]
    [1], every other entry is a [float]. *)
Inductive pynum : Set :=
| NInt (n : Z)
| NFloat (f : float).

(** The two messages [SpeckleException] is raised with. *)
Inductive speckle_message : Set :=
| CouldNotUnderstand (unit : Z)
    (* "Could not understand what unit {unit} is referring to. ..." *)
| NoEncodingExists (unit : pyval).
    (* "No encoding exists for unit {maybe_sanitized_unit}. ..." *)

Inductive pyexn : Set :=
| SpeckleInvalidUnitException (invalid_unit : pyval)
| SpeckleException (message : speckle_message)
| ValueError (fromUnits : pyval)   (* "Invalid units provided: {fromUnits}" *)
| ZeroDivisionError.

Inductive result (A : Type) : Type :=
| ok (a : A)
| raise (e : pyexn).
Arguments ok {A} a.
Arguments raise {A} e.

(** Sequencing: an exception of the first computation propagates. *)
Definition bind {A B : Type} (r : result A) (k : A -> result B) : result B :=
  match r with
  | ok a => k a
  | raise e => raise e
  end.

Notation "x <- r ;; k" := (bind r (fun x => k))
  (at level 61, r at next level, right associativity).

(** ** The tables *)

Definition UNITS_STRINGS : list (Units.t * list string) :=
  [ (Units.mm, ["mm"; "mil"; "millimeters"; "millimetres"]);
    (Units.cm, ["cm"; "centimetre"; "centimeter"; "centimetres"; "centimeters"]);
    (Units.m, ["m"; "meter"; "meters"; "metre"; "metres"]);
    (Units.km, ["km"; "kilometer"; "kilometre"; "kilometers"; "kilometres"]);
    (Units.inches, ["in"; "inch"; "inches"]);
    (Units.feet, ["ft"; "foot"; "feet"]);
    (Units.yards, ["yd"; "yard"; "yards"]);
    (Units.miles, ["mi"; "mile"; "miles"]);
    (Units.none, ["none"; "null"]);
    (Units.sqm, ["sqm"; "m²"; "square meter"; "square meters"]);
    (Units.cbm, ["cbm"; "m³"; "cubic meter"; "cubic meters"]);
    (Units.percent, ["percent"; "%"]);
    (Units.watts, ["W"; "watt"; "watts"]);
    (Units.watts_per_sqm, ["W/m²"; "watts per square meter"]);
    (Units.liters_per_sec_sqm,
      ["L/(s·m²)"; "liters per second per square meter"]) ].

(** The keys of [UNITS_ENCODINGS] are the members of [Units] and [None]:
    [Some u] stands for the member [u], [None] for Python's [None]. *)
Definition UNITS_ENCODINGS : list (option Units.t * Z) :=
  [ (Some Units.none, 0);
    (None, 0);
    (Some Units.mm, 1);
    (Some Units.cm, 2);
    (Some Units.m, 3);
    (Some Units.km, 4);
    (Some Units.inches, 5);
    (Some Units.feet, 6);
    (Some Units.yards, 7);
    (Some Units.miles, 8);
    (Some Units.sqm, 9);
    (Some Units.cbm, 10);
    (Some Units.percent, 11);
    (Some Units.watts, 12);
    (Some Units.watts_per_sqm, 13);
    (Some Units.liters_per_sec_sqm, 14) ].

Definition UNIT_SCALE : list (Units.t * pynum) :=
  [ (Units.none, NInt 1);
    (Units.mm, NFloat 0.001);
    (Units.cm, NFloat 0.01);
    (Units.m, NFloat 1.0);
    (Units.km, NFloat 1000.0);
    (Units.inches, NFloat 0.0254);
    (Units.feet, NFloat 0.3048);
    (Units.yards, NFloat 0.9144);
    (Units.miles, NFloat 1609.340);
    (Units.sqm, NFloat 1.0);
    (Units.cbm, NFloat 1.0);
    (Units.percent, NFloat 0.01);
    (Units.watts, NFloat 1.0);
    (Units.watts_per_sqm, NFloat 1.0);
    (Units.liters_per_sec_sqm, NFloat 1.0) ].

(** ** Built-in operations the module relies on *)

(** [str.lower] on one ASCII byte: [A]..[Z] go to [a]..[z]. *)
Definition lower_ascii (c : ascii) : ascii :=
  let n := N_of_ascii c in
  if ((65 <=? n) && (n <=? 90))%N then ascii_of_N (n + 32) else c.

(** The second byte of the UTF-8 form of an upper-case letter of the
    Latin-1 supplement (U+00C0..U+00DE without the multiplication sign
    U+00D7), whose first byte is 0xC3. *)
Definition latin1_upper_tail (d : ascii) : bool :=
  let n := N_of_ascii d in
  ((128 <=? n) && (n <=? 158) && negb (n =? 151))%N.

(** [str.lower(unit)].  ASCII letters and the letters of the Latin-1
    supplement are lowered; every other byte is kept.  This is Python's
    [str.lower] on every str whose cased characters lie in U+0000..U+00FF,
    which covers all strings of the alias table; the case mappings of
    characters beyond U+00FF are not part of the model. *)
Fixpoint str_lower (s : string) : string :=
  match s with
  | EmptyString => EmptyString
  | String c s' =>
      match s' with
      | String d s'' =>
          if (N_of_ascii c =? 195)%N && latin1_upper_tail d
          then String c (String (ascii_of_N (N_of_ascii d + 32)) (str_lower s''))
          else String (lower_ascii c) (str_lower s')
      | EmptyString => String (lower_ascii c) EmptyString
      end
  end.

(** [unit in alternates] for a list of strs. *)
Definition str_in (unit : string) (alternates : list string) : bool :=
  existsb (String.eqb unit) alternates.

(** [name or Units.none]: a member of an [Enum] is truthy, [None] is not. *)
Definition or_none (name : option Units.t) : Units.t :=
  match name with
  | Some u => u
  | None => Units.none
  end.

Definition key_eqb (a b : option Units.t) : bool :=
  match a, b with
  | Some x, Some y => Units.eqb x y
  | None, None => true
  | _, _ => false
  end.

(** [float(n)] for an [int] operand of [/]: the binary64 number of value
    [n], exact below 2^53 (the scale table holds the single integer 1). *)
Definition float_of_int (n : Z) : float :=
  match n with
  | Z0 => 0%float
  | Zpos p => SF2Prim (S754_finite false p 0)
  | Zneg p => SF2Prim (S754_finite true p 0)
  end.

Definition to_float (x : pynum) : float :=
  match x with
  | NInt n => float_of_int n
  | NFloat f => f
  end.

(** [a / b] on numbers: true division, which raises on a zero divisor. *)
Definition truediv (a b : pynum) : result float :=
  if (to_float b =? 0)%float then raise ZeroDivisionError
  else ok (to_float a / to_float b)%float.

(** [==] on floats is the IEEE comparison. *)
Definition float_eq (x y : float) : bool := (x =? y)%float.

(** ** The functions *)

(** The loop of [get_units_from_string]: the name of the first entry whose
    alternates contain [unit]. *)
Fixpoint first_alias_match (unit : string)
    (items : list (Units.t * list string)) : option Units.t :=
  match items with
  | [] => None
  | (name, alternates) :: rest =>
      if str_in unit alternates then Some name
      else first_alias_match unit rest
  end.

Definition get_units_from_string (unit : pyval) : result Units.t :=
  match unit with
  | VStr s =>
      let unit := str_lower s in
      match first_alias_match unit UNITS_STRINGS with
      | Some name => ok name
      | None => raise (SpeckleInvalidUnitException (VStr unit))
      end
  | _ => raise (SpeckleInvalidUnitException unit)
  end.

(** The loop of [get_units_from_encoding]. *)
Fixpoint first_encoding_match (unit : Z)
    (items : list (option Units.t * Z)) : option Units.t :=
  match items with
  | [] => None
  | (name, encoding) :: rest =>
      if unit =? encoding then Some (or_none name)
      else first_encoding_match unit rest
  end.

Definition get_units_from_encoding (unit : Z) : result Units.t :=
  match first_encoding_match unit UNITS_ENCODINGS with
  | Some name => ok name
  | None => raise (SpeckleException (CouldNotUnderstand unit))
  end.

(** The loop of [get_encoding_from_units]: it compares [unit] as given,
    does not stop at a match, and so keeps the last one. *)
Definition sanitize_step (unit : string) (maybe_sanitized_unit : pyval)
    (item : Units.t * list string) : pyval :=
  let '(unit_enum, aliases) := item in
  if str_in unit aliases then VUnits unit_enum else maybe_sanitized_unit.

Definition maybe_sanitize (unit : pyval) : pyval :=
  match unit with
  | VStr s => fold_left (sanitize_step s) UNITS_STRINGS unit
  | _ => unit
  end.

(** [UNITS_ENCODINGS[key]]: [None] is the [KeyError].  No key of the table
    is an [int] or a [str]. *)
Definition encodings_getitem (key : pyval) : option Z :=
  let find k :=
    option_map snd (List.find (fun kv => key_eqb k (fst kv)) UNITS_ENCODINGS) in
  match key with
  | VUnits u => find (Some u)
  | VNone => find None
  | VInt _ | VStr _ => None
  end.

Definition get_encoding_from_units (unit : pyval) : result Z :=
  let maybe_sanitized_unit := maybe_sanitize unit in
  match encodings_getitem maybe_sanitized_unit with
  | Some encoding => ok encoding
  | None => raise (SpeckleException (NoEncodingExists maybe_sanitized_unit))
  end.

(** [UNIT_SCALE[fromUnits]] for a member of [Units]. *)
Definition scale_getitem (u : Units.t) : option pynum :=
  option_map snd (List.find (fun kv => Units.eqb u (fst kv)) UNIT_SCALE).

Definition get_scale_factor_to_meters (fromUnits : pyval) : result pynum :=
  match fromUnits with
  | VUnits u =>
      match scale_getitem u with
      | Some scale => ok scale
      | None => raise (ValueError fromUnits)
      end
  | _ => raise (ValueError fromUnits)
  end.

Definition get_scale_factor (fromUnits toUnits : pyval) : result float :=
  a <- get_scale_factor_to_meters fromUnits ;;
  b <- get_scale_factor_to_meters toUnits ;;
  truediv a b.

Definition get_scale_factor_from_string (fromUnits toUnits : pyval)
    : result float :=
  f <- get_units_from_string fromUnits ;;
  t <- get_units_from_string toUnits ;;
  get_scale_factor (VUnits f) (VUnits t).

(** ** Vocabulary of the properties *)

(** [s] is listed for [U] in the alias table. *)
Definition is_alias (U : Units.t) (s : string) : Prop :=
  exists alternates, In (U, alternates) UNITS_STRINGS /\ In s alternates.

(** Every unit of [items] whose alias list holds [s], in table order. *)
Definition owners_in (s : string) (items : list (Units.t * list string))
    : list Units.t :=
  map fst (filter (fun kv => str_in s (snd kv)) items).

(** Every alias string of the table, list after list. *)
Definition all_aliases : list string := List.concat (map snd UNITS_STRINGS).

(** The Python value of a key of [UNITS_ENCODINGS]. *)
Definition key_value (key : option Units.t) : pyval :=
  match key with
  | Some u => VUnits u
  | None => VNone
  end.

(** [1 / r], as the properties of the scale factor write it. *)
Definition reciprocal (r : float) : result float := truediv (NInt 1) (NFloat r).

(** [x] is one of the two binary64 neighbours of [z]. *)
Definition adjacent (x z : float) : Prop := x = next_up z \/ x = next_down z.

(** The ordered pairs of units on which the quotient and the reciprocal of
    the opposite quotient round differently. *)
Definition inexact_reciprocals : list (Units.t * Units.t) :=
  [ (Units.mm, Units.miles); (Units.cm, Units.inches); (Units.km, Units.cm);
    (Units.km, Units.percent); (Units.inches, Units.feet);
    (Units.inches, Units.miles); (Units.feet, Units.inches);
    (Units.feet, Units.yards); (Units.yards, Units.km);
    (Units.yards, Units.feet); (Units.yards, Units.miles);
    (Units.miles, Units.mm); (Units.miles, Units.inches);
    (Units.miles, Units.yards); (Units.percent, Units.inches) ].

Definition pair_in (A B : Units.t) (l : list (Units.t * Units.t)) : bool :=
  existsb (fun q => Units.eqb A (fst q) && Units.eqb B (snd q)) l.

(** The first byte of [t] is the second byte of an upper-case letter of the
    Latin-1 supplement. *)
Definition head_upper (t : string) : bool :=
  match t with
  | String d _ => latin1_upper_tail d
  | EmptyString => false
  end.


(** The smallest and the largest quotient of two entries of [UNIT_SCALE]:
    millimetres to miles and miles to millimetres. *)
Definition min_scale_factor : float := 0x1.4d98d19277f05p-21%float.
Definition max_scale_factor : float := 1609340.0%float.

(** ** Scale factors *)

(** The decimal literals of [UNIT_SCALE] denote these binary64 numbers
    (mantissa and binary exponent). *)
Lemma UNIT_SCALE_bits :
  map (fun kv => Prim2SF (to_float (snd kv))) UNIT_SCALE =
  [ S754_finite false 4503599627370496 (-52);
    S754_finite false 4611686018427388 (-62);
    S754_finite false 5764607523034235 (-59);
    S754_finite false 4503599627370496 (-52);
    S754_finite false 8796093022208000 (-43);
    S754_finite false 7321051554253478 (-58);
    S754_finite false 5490788665690109 (-54);
    S754_finite false 8236182998535163 (-53);
    S754_finite false 7077952172180111 (-42);
    S754_finite false 4503599627370496 (-52);
    S754_finite false 4503599627370496 (-52);
    S754_finite false 5764607523034235 (-59);
    S754_finite false 4503599627370496 (-52);
    S754_finite false 4503599627370496 (-52);
    S754_finite false 4503599627370496 (-52) ].
Proof. vm_compute. reflexivity. Qed.

(** C5. For every unit [U], [get_scale_factor(U, U)] returns the float
    [1.0]. *)
Theorem get_scale_factor_same_unit : forall U : Units.t,
  get_scale_factor (VUnits U) (VUnits U) = ok 1.0%float.
Proof. intros U; destruct U; vm_compute; reflexivity. Qed.

(** C6, as stated, fails: from kilometres to centimetres the factor is
    [100000.0], while the reciprocal of the factor from centimetres to
    kilometres is [99999.99999999999]; [==] tells them apart. *)
Lemma get_scale_factor_km_cm_not_reciprocal :
  get_scale_factor (VUnits Units.km) (VUnits Units.cm) = ok 100000.0%float /\
  get_scale_factor (VUnits Units.cm) (VUnits Units.km) =
    ok 0x1.4f8b588e368f1p-17%float /\
  reciprocal 0x1.4f8b588e368f1p-17 = ok 0x1.869ffffffffffp+16%float /\
  ~ (exists x y z,
       get_scale_factor (VUnits Units.km) (VUnits Units.cm) = ok x /\
       get_scale_factor (VUnits Units.cm) (VUnits Units.km) = ok y /\
       reciprocal y = ok z /\
       float_eq x z = true).
Proof.
  split; [reflexivity | split; [reflexivity | split; [reflexivity|]]].
  intros [x [y [z [Hx [Hy [Hz H]]]]]].
  vm_compute in Hx; injection Hx as <-.
  vm_compute in Hy; injection Hy as <-.
  vm_compute in Hz; injection Hz as <-.
  vm_compute in H; discriminate H.
Qed.

(** C6, amended. For every pair of units [A], [B], [get_scale_factor(A, B)]
    is the binary64 quotient of the two scale-to-base factors, and it is
    [1 / get_scale_factor(B, A)] up to one unit in the last place: the two
    floats are equal, except on the fifteen pairs of [inexact_reciprocals],
    where they are adjacent binary64 numbers. *)
Theorem get_scale_factor_reciprocal : forall A B : Units.t,
  exists a b x y z,
    get_scale_factor_to_meters (VUnits A) = ok a /\
    get_scale_factor_to_meters (VUnits B) = ok b /\
    get_scale_factor (VUnits A) (VUnits B) = ok x /\
    x = (to_float a / to_float b)%float /\
    get_scale_factor (VUnits B) (VUnits A) = ok y /\
    reciprocal y = ok z /\
    if pair_in A B inexact_reciprocals
    then float_eq x z = false /\ adjacent x z
    else x = z.
Proof.
  intros A B; destruct A, B;
    eexists _, _, _, _, _;
    (split; [vm_compute; reflexivity|]);
    (split; [vm_compute; reflexivity|]);
    (split; [vm_compute; reflexivity|]);
    (split; [vm_compute; reflexivity|]);
    (split; [vm_compute; reflexivity|]);
    (split; [vm_compute; reflexivity|]);
    vm_compute;
    first [ reflexivity
          | split; [reflexivity | first [left; reflexivity | right; reflexivity]] ].
Qed.

(** C9. The examples of the registry: ["meters"] parses to [Units.m], the
    encoding of [Units.m] is 3, a metre is [1000.0] millimetres and a foot
    is [0.3048] metres. *)
Theorem registry_examples :
  get_units_from_string (VStr "meters") = ok Units.m /\
  get_encoding_from_units (VUnits Units.m) = ok 3 /\
  get_scale_factor (VUnits Units.m) (VUnits Units.mm) = ok 1000.0%float /\
  get_scale_factor (VUnits Units.feet) (VUnits Units.m) = ok 0.3048%float.
Proof. repeat split; vm_compute; reflexivity. Qed.

(** ** The alias table *)

Lemma str_in_In : forall s l, str_in s l = true <-> In s l.
Proof.
  intros s l; unfold str_in; rewrite existsb_exists; split.
  - intros [x [Hx He]]. apply String.eqb_eq in He. now subst.
  - intros H; exists s; split; [exact H | apply String.eqb_refl].
Qed.

Lemma in_owners_in : forall s items U,
  In U (owners_in s items) <->
  exists alternates, In (U, alternates) items /\ In s alternates.
Proof.
  intros s items U; unfold owners_in; rewrite in_map_iff; split.
  - intros [[U' l] [HU Hf]]; simpl in HU; subst U'.
    apply filter_In in Hf; destruct Hf as [Hin Hs]; simpl in Hs.
    exists l; split; [exact Hin | now apply str_in_In].
  - intros [l [Hin Hs]]; exists (U, l); split; [reflexivity |].
    apply filter_In; split; [exact Hin | now apply str_in_In].
Qed.

Lemma is_alias_owners : forall U s,
  is_alias U s <-> In U (owners_in s UNITS_STRINGS).
Proof. intros U s; symmetry; apply in_owners_in. Qed.

(** The loop of [get_units_from_string] returns the first owner. *)
Lemma first_alias_match_owners : forall s items,
  first_alias_match s items = hd_error (owners_in s items).
Proof.
  intros s items; induction items as [|[name alternates] rest IH]; [reflexivity|].
  unfold owners_in in *; simpl; destruct (str_in s alternates); simpl; auto.
Qed.

Lemma last_nonempty_default : forall (A : Type) (l : list A) (x d d' : A),
  last (x :: l) d = last (x :: l) d'.
Proof.
  intros A l; induction l as [|y l IH]; intros x d d'; [reflexivity|].
  change (last (y :: l) d = last (y :: l) d'); apply IH.
Qed.

(** The loop of [get_encoding_from_units] ends on the last owner. *)
Lemma fold_sanitize_owners : forall s items acc,
  fold_left (sanitize_step s) items acc =
  last (map VUnits (owners_in s items)) acc.
Proof.
  intros s items; induction items as [|[name alternates] rest IH]; intros acc;
    [reflexivity|].
  simpl fold_left; rewrite IH; unfold owners_in; simpl.
  destruct (str_in s alternates); simpl; [|reflexivity].
  destruct (map VUnits (map fst (filter (fun kv => str_in s (snd kv)) rest)));
    [reflexivity | apply last_nonempty_default].
Qed.

Lemma alias_in_all_aliases : forall U s, is_alias U s -> In s all_aliases.
Proof.
  intros U s [l [Hin Hs]]; unfold all_aliases; apply in_concat.
  exists l; split; [|exact Hs].
  apply in_map_iff; exists (U, l); split; [reflexivity | exact Hin].
Qed.

(** Every alias string of the table is held by one list only. *)
Lemma alias_single_owner : forall s,
  In s all_aliases -> exists U, owners_in s UNITS_STRINGS = [U].
Proof.
  assert (H : forallb
                (fun s => Nat.eqb (List.length (owners_in s UNITS_STRINGS)) 1)
                all_aliases = true) by (vm_compute; reflexivity).
  intros s Hs; rewrite forallb_forall in H; specialize (H s Hs).
  apply Nat.eqb_eq in H.
  destruct (owners_in s UNITS_STRINGS) as [|U [|V l]]; try discriminate.
  now exists U.
Qed.

(** A string has at most one owner. *)
Lemma owners_at_most_one : forall s U,
  In U (owners_in s UNITS_STRINGS) -> owners_in s UNITS_STRINGS = [U].
Proof.
  intros s U HU.
  destruct (alias_single_owner s) as [V HV].
  - apply (alias_in_all_aliases U); now apply is_alias_owners.
  - rewrite HV in HU |- *; destruct HU as [->|[]]; reflexivity.
Qed.

(** The keys of the alias table are the fifteen units, once each. *)
Lemma UNITS_STRINGS_keys : map fst UNITS_STRINGS = Units.members.
Proof. reflexivity. Qed.

(** The [value] of every member is one of its own aliases. *)
Lemma value_is_alias : forall U, is_alias U (Units.value U).
Proof.
  intros U; apply is_alias_owners; destruct U; vm_compute; now left.
Qed.

(** A string the alias table holds in lower case is returned its unit, in
    whatever case the caller writes it. *)
Lemma get_units_from_string_lowered : forall U s unit,
  is_alias U s -> str_lower unit = s ->
  get_units_from_string (VStr unit) = ok U.
Proof.
  intros U s unit HU Hl; unfold get_units_from_string; rewrite Hl.
  rewrite first_alias_match_owners.
  rewrite (owners_at_most_one s U); [reflexivity | now apply is_alias_owners].
Qed.

(** [get_units_from_string] raises exactly on a value that is not a str and
    on a str whose lower-case form is in no alias list as stored. *)
Lemma get_units_from_string_raises : forall v,
  (exists e, get_units_from_string v = raise e) <->
  match v with
  | VStr s => forall U, ~ is_alias U (str_lower s)
  | _ => True
  end.
Proof.
  intros v; destruct v as [|n|s|u];
    try (split; [trivial | intros _; eexists; reflexivity]).
  unfold get_units_from_string; rewrite first_alias_match_owners.
  destruct (owners_in (str_lower s) UNITS_STRINGS) as [|U l] eqn:E; simpl.
  - split; [|intros _; eexists; reflexivity].
    intros _ U HU; apply is_alias_owners in HU; rewrite E in HU; exact HU.
  - split; [intros [e He]; discriminate|].
    intros H; exfalso; apply (H U), is_alias_owners; rewrite E; now left.
Qed.

(** The aliases that [get_units_from_string] does not map to their unit
    are the three that the table stores with an upper-case letter. *)
Lemma aliases_not_parsed :
  filter
    (fun us => match get_units_from_string (VStr (snd us)) with
               | ok U => negb (Units.eqb U (fst us))
               | raise _ => true
               end)
    (flat_map (fun kv => map (pair (fst kv)) (snd kv)) UNITS_STRINGS) =
  [ (Units.watts, "W"); (Units.watts_per_sqm, "W/m²");
    (Units.liters_per_sec_sqm, "L/(s·m²)") ].
Proof. vm_compute. reflexivity. Qed.

(** C1 fails on the code. ["W"] is listed for [Units.watts], but
    [get_units_from_string("W")] lowers its argument to ["w"], which no
    alias list holds, and raises [SpeckleInvalidUnitException]. *)
Theorem get_units_from_string_alias_W :
  is_alias Units.watts "W" /\
  str_lower "W" = "w" /\
  get_units_from_string (VStr "W") =
    raise (SpeckleInvalidUnitException (VStr "w")).
Proof.
  split; [|split; reflexivity].
  apply is_alias_owners; vm_compute; now left.
Qed.

(** C7 fails on the code. ["W/m²"] is a str and is an alias of
    [Units.watts_per_sqm] as it stands, yet [get_units_from_string] raises
    [SpeckleInvalidUnitException] on it. *)
Theorem get_units_from_string_alias_W_per_sqm :
  is_alias Units.watts_per_sqm "W/m²" /\
  get_units_from_string (VStr "W/m²") =
    raise (SpeckleInvalidUnitException (VStr "w/m²")).
Proof.
  split; [|reflexivity].
  apply is_alias_owners; vm_compute; now left.
Qed.

(** C10. No alias string is listed under two units; hence the unit
    [get_units_from_string] returns is the only one whose list holds the
    lowered string, and the unit the loop of [get_encoding_from_units]
    ends on is the only one whose list holds the string. *)
Theorem aliases_unambiguous :
  (forall U1 U2 s, is_alias U1 s -> is_alias U2 s -> U1 = U2) /\
  (forall s U, get_units_from_string (VStr s) = ok U ->
     is_alias U (str_lower s) /\
     forall U', is_alias U' (str_lower s) -> U' = U) /\
  (forall s U, maybe_sanitize (VStr s) = VUnits U ->
     is_alias U s /\ forall U', is_alias U' s -> U' = U).
Proof.
  assert (D : forall U1 U2 s, is_alias U1 s -> is_alias U2 s -> U1 = U2).
  { intros U1 U2 s H1 H2.
    apply is_alias_owners in H1; apply is_alias_owners in H2.
    rewrite (owners_at_most_one s U1 H1) in H2.
    destruct H2 as [H2|[]]; now symmetry. }
  split; [exact D | split].
  - intros s U H; unfold get_units_from_string in H.
    rewrite first_alias_match_owners in H.
    assert (HU : is_alias U (str_lower s)).
    { apply is_alias_owners.
      destruct (owners_in (str_lower s) UNITS_STRINGS) as [|V l];
        simpl in H; [discriminate|].
      injection H as ->; now left. }
    split; [exact HU | intros U' HU'; exact (D U' U _ HU' HU)].
  - intros s U H; unfold maybe_sanitize in H.
    rewrite fold_sanitize_owners in H.
    assert (HU : is_alias U s).
    { apply is_alias_owners.
      destruct (owners_in s UNITS_STRINGS) as [|V l] eqn:E;
        [simpl in H; discriminate|].
      assert (El : l = []).
      { assert (HV : owners_in s UNITS_STRINGS = [V])
          by (apply owners_at_most_one; rewrite E; now left).
        rewrite E in HV; now injection HV. }
      subst l; simpl in H; injection H as ->; now left. }
    split; [exact HU | intros U' HU'; exact (D U' U _ HU' HU)].
Qed.

Lemma aliases_unambiguous_witness :
  get_units_from_string (VStr "Feet") = ok Units.feet /\
  maybe_sanitize (VStr "foot") = VUnits Units.feet /\
  is_alias Units.feet "feet" /\ is_alias Units.feet "foot" /\
  (forall U', is_alias U' "feet" -> U' = Units.feet) /\
  (forall U', is_alias U' "foot" -> U' = Units.feet).
Proof.
  destruct aliases_unambiguous as [H1 [H2 H3]].
  assert (P : get_units_from_string (VStr "Feet") = ok Units.feet)
    by reflexivity.
  assert (S : maybe_sanitize (VStr "foot") = VUnits Units.feet)
    by reflexivity.
  destruct (H2 "Feet" Units.feet P) as [A2 B2].
  destruct (H3 "foot" Units.feet S) as [A3 B3].
  split; [exact P | split; [exact S | split; [exact A2 | split; [exact A3 |]]]].
  split; [intros U' HU'; exact (H1 U' Units.feet "feet" HU' A2) | exact B3].
Defined.

(** ** The encoding table *)

(** Subscription returns the entry of the key. *)
Lemma encodings_getitem_entry : forall key n,
  In (key, n) UNITS_ENCODINGS <-> encodings_getitem (key_value key) = Some n.
Proof.
  intros key n; split.
  - unfold UNITS_ENCODINGS; simpl In; intros H.
    repeat (destruct H as [H|H]; [injection H as <- <-; reflexivity|]).
    contradiction.
  - destruct key as [u|]; [destruct u|]; vm_compute;
      intros H; injection H as <-; tauto.
Qed.

(** Every unit has an entry. *)
Lemma every_unit_encoded : forall U,
  exists n, In (Some U, n) UNITS_ENCODINGS.
Proof.
  intros U; destruct (encodings_getitem (VUnits U)) as [n|] eqn:E.
  - exists n; now apply (encodings_getitem_entry (Some U)).
  - destruct U; discriminate.
Qed.

(** A code that no entry carries is not found by the loop. *)
Lemma first_encoding_match_none : forall n items,
  (forall key e, In (key, e) items -> e <> n) ->
  first_encoding_match n items = None.
Proof.
  intros n items; induction items as [|[name e] rest IH]; intros H;
    [reflexivity|]; simpl.
  destruct (Z.eqb_spec n e) as [->|_].
  - exfalso; apply (H name e); [now left | reflexivity].
  - apply IH; intros key e' Hin; apply (H key e'); now right.
Qed.

(** What the loop returns comes from an entry that carries the code. *)
Lemma first_encoding_match_some : forall n items U,
  first_encoding_match n items = Some U ->
  exists key, In (key, n) items /\ or_none key = U.
Proof.
  intros n items U; induction items as [|[name e] rest IH]; simpl;
    [discriminate|].
  destruct (Z.eqb_spec n e) as [->|_].
  - intros H; injection H as <-; exists name; split; [now left | reflexivity].
  - intros H; destruct (IH H) as [key [Hin Hk]]; exists key; split;
      [now right | exact Hk].
Qed.

(** A unit is encoded as its entry of the table. *)
Lemma encode_entry : forall U n,
  In (Some U, n) UNITS_ENCODINGS -> get_encoding_from_units (VUnits U) = ok n.
Proof.
  intros U n H; apply (encodings_getitem_entry (Some U)) in H.
  unfold get_encoding_from_units; simpl maybe_sanitize.
  simpl key_value in H; now rewrite H.
Qed.

(** The code of a unit is decoded as that unit: the loop meets the entry of
    the unit before any other entry with the same code. *)
Lemma decode_entry : forall U n,
  In (Some U, n) UNITS_ENCODINGS -> get_units_from_encoding n = ok U.
Proof.
  intros U n H; apply (encodings_getitem_entry (Some U)) in H.
  destruct U; vm_compute in H; injection H as <-; reflexivity.
Qed.

(** C2. For every unit [U] with an entry [n] in the encoding table,
    [get_encoding_from_units(U)] returns [n] and
    [get_units_from_encoding(n)] returns [U]: decoding the encoding of [U]
    gives [U] back. *)
Theorem decode_encode : forall (U : Units.t) (n : Z),
  In (Some U, n) UNITS_ENCODINGS ->
  get_encoding_from_units (VUnits U) = ok n /\
  get_units_from_encoding n = ok U /\
  (e <- get_encoding_from_units (VUnits U) ;; get_units_from_encoding e) = ok U.
Proof.
  intros U n H.
  pose proof (encode_entry U n H) as E; pose proof (decode_entry U n H) as D.
  split; [exact E | split; [exact D |]].
  rewrite E; simpl; exact D.
Qed.

Lemma decode_encode_witness :
  In (Some Units.none, 0) UNITS_ENCODINGS /\
  get_encoding_from_units (VUnits Units.none) = ok 0 /\
  get_units_from_encoding 0 = ok Units.none.
Proof.
  assert (H : In (Some Units.none, 0) UNITS_ENCODINGS) by (simpl; tauto).
  destruct (decode_encode Units.none 0 H) as [E [D _]].
  split; [exact H | split; [exact E | exact D]].
Defined.

(** C3. For every integer [n]: when [n] is the encoding of a unit,
    [get_units_from_encoding(n)] returns that unit, and it returns no other
    unit; [get_units_from_encoding(0)] is [Units.none]; when no entry
    carries [n] (999 is such a code), it raises the "could not understand"
    [SpeckleException]. *)
Theorem get_units_from_encoding_spec :
  (forall n U, In (Some U, n) UNITS_ENCODINGS ->
     get_units_from_encoding n = ok U) /\
  (forall n U, get_units_from_encoding n = ok U ->
     In (Some U, n) UNITS_ENCODINGS) /\
  get_units_from_encoding 0 = ok Units.none /\
  (forall n, (forall key e, In (key, e) UNITS_ENCODINGS -> e <> n) ->
     get_units_from_encoding n =
       raise (SpeckleException (CouldNotUnderstand n))) /\
  get_units_from_encoding 999 =
    raise (SpeckleException (CouldNotUnderstand 999)).
Proof.
  split; [|split; [|split; [reflexivity | split; [|reflexivity]]]].
  - intros n U H; exact (decode_entry U n H).
  - intros n U H; unfold get_units_from_encoding in H.
    destruct (first_encoding_match n UNITS_ENCODINGS) as [V|] eqn:E;
      [|discriminate].
    injection H as ->.
    destruct (first_encoding_match_some _ _ _ E) as [[u|] [Hin Hk]];
      simpl in Hk; subst; [exact Hin|].
    apply (encodings_getitem_entry None) in Hin; vm_compute in Hin.
    injection Hin as <-; simpl; tauto.
  - intros n H; unfold get_units_from_encoding.
    now rewrite (first_encoding_match_none n UNITS_ENCODINGS H).
Qed.

Lemma get_units_from_encoding_spec_witness :
  In (Some Units.m, 3) UNITS_ENCODINGS /\
  get_units_from_encoding 3 = ok Units.m /\
  (forall key e, In (key, e) UNITS_ENCODINGS -> e <> 1000) /\
  get_units_from_encoding 1000 =
    raise (SpeckleException (CouldNotUnderstand 1000)).
Proof.
  destruct get_units_from_encoding_spec as [H1 [H2 [_ [H4 _]]]].
  assert (A : get_units_from_encoding 3 = ok Units.m) by reflexivity.
  assert (B : forall key e, In (key, e) UNITS_ENCODINGS -> e <> 1000).
  { intros key e H; apply encodings_getitem_entry in H.
    destruct key as [u|]; [destruct u|]; vm_compute in H;
      injection H as <-; discriminate. }
  split; [exact (H2 3 Units.m A) | split; [exact (H1 3 Units.m (H2 3 Units.m A)) |]].
  split; [exact B | exact (H4 1000 B)].
Defined.

(** C4, as stated, fails: ["MM"] is a casing variant of the alias ["mm"]
    of [Units.mm] (and [get_units_from_string] maps it to [Units.mm]), but
    [get_encoding_from_units("MM")] compares the string as given, resolves
    nothing and raises instead of returning the encoding 1. *)
Lemma get_encoding_from_units_MM :
  is_alias Units.mm "mm" /\
  str_lower "MM" = "mm" /\
  get_units_from_string (VStr "MM") = ok Units.mm /\
  get_encoding_from_units (VUnits Units.mm) = ok 1 /\
  get_encoding_from_units (VStr "MM") =
    raise (SpeckleException (NoEncodingExists (VStr "MM"))) /\
  get_encoding_from_units (VStr "MM") <>
    get_encoding_from_units (VUnits Units.mm).
Proof.
  split; [apply is_alias_owners; vm_compute; now left|].
  repeat (split; [reflexivity|]).
  vm_compute; discriminate.
Qed.

(** C4, amended. [get_encoding_from_units] returns 0 on [None] and the
    table entry on a unit; a string that is an alias of [U] exactly as
    given (no case folding) is encoded as [U]; a string that is no alias
    as given stays the raw string and raises the "no encoding exists"
    [SpeckleException]; in every case the call returns the table entry of
    the resolved value and raises exactly when there is none. *)
Theorem get_encoding_from_units_spec :
  get_encoding_from_units VNone = ok 0 /\
  (forall U, exists n, In (Some U, n) UNITS_ENCODINGS /\
     get_encoding_from_units (VUnits U) = ok n) /\
  (forall s U, is_alias U s ->
     maybe_sanitize (VStr s) = VUnits U /\
     get_encoding_from_units (VStr s) = get_encoding_from_units (VUnits U)) /\
  (forall s, (forall U, ~ is_alias U s) ->
     maybe_sanitize (VStr s) = VStr s /\
     get_encoding_from_units (VStr s) =
       raise (SpeckleException (NoEncodingExists (VStr s)))) /\
  (forall v n, get_encoding_from_units v = ok n <->
     encodings_getitem (maybe_sanitize v) = Some n) /\
  (forall v e, get_encoding_from_units v = raise e <->
     encodings_getitem (maybe_sanitize v) = None /\
     e = SpeckleException (NoEncodingExists (maybe_sanitize v))).
Proof.
  split; [reflexivity|].
  split.
  { intros U; destruct (every_unit_encoded U) as [n Hn]; exists n.
    split; [exact Hn | exact (encode_entry U n Hn)]. }
  split.
  { intros s U HU.
    assert (R : maybe_sanitize (VStr s) = VUnits U).
    { unfold maybe_sanitize; rewrite fold_sanitize_owners.
      rewrite (owners_at_most_one s U); [reflexivity|].
      now apply is_alias_owners. }
    split; [exact R|].
    unfold get_encoding_from_units; rewrite R; reflexivity. }
  split.
  { intros s H.
    assert (R : maybe_sanitize (VStr s) = VStr s).
    { unfold maybe_sanitize; rewrite fold_sanitize_owners.
      destruct (owners_in s UNITS_STRINGS) as [|U l] eqn:E; [reflexivity|].
      exfalso; apply (H U), is_alias_owners; rewrite E; now left. }
    split; [exact R|].
    unfold get_encoding_from_units; rewrite R; reflexivity. }
  split.
  - intros v n; unfold get_encoding_from_units.
    destruct (encodings_getitem (maybe_sanitize v)); split; intros H;
      try discriminate; injection H as ->; reflexivity.
  - intros v e; unfold get_encoding_from_units.
    destruct (encodings_getitem (maybe_sanitize v)); split.
    + discriminate.
    + intros [H _]; discriminate.
    + intros H; injection H as <-; split; reflexivity.
    + intros [_ ->]; reflexivity.
Qed.

Lemma get_encoding_from_units_spec_witness :
  is_alias Units.watts "W" /\
  get_encoding_from_units (VStr "W") = ok 12 /\
  (forall U, ~ is_alias U "w") /\
  get_encoding_from_units (VStr "w") =
    raise (SpeckleException (NoEncodingExists (VStr "w"))).
Proof.
  destruct get_encoding_from_units_spec as [_ [_ [H3 [H4 _]]]].
  assert (A : is_alias Units.watts "W")
    by (apply is_alias_owners; vm_compute; now left).
  assert (B : forall U, ~ is_alias U "w").
  { intros U HU; apply is_alias_owners in HU; vm_compute in HU; exact HU. }
  split; [exact A | split; [exact (proj2 (H3 "W" Units.watts A)) |]].
  split; [exact B | exact (proj2 (H4 "w" B))].
Defined.

(** ** The scale table *)

(** The keys of the scale table are the fifteen units, once each. *)
Lemma UNIT_SCALE_keys :
  map fst UNIT_SCALE =
  [ Units.none; Units.mm; Units.cm; Units.m; Units.km; Units.inches;
    Units.feet; Units.yards; Units.miles; Units.sqm; Units.cbm;
    Units.percent; Units.watts; Units.watts_per_sqm;
    Units.liters_per_sec_sqm ] /\
  NoDup (map fst UNIT_SCALE) /\
  forall U, In U (map fst UNIT_SCALE).
Proof.
  split; [reflexivity | split].
  - simpl; repeat (constructor; [simpl; intuition discriminate|]); constructor.
  - intros U; destruct U; simpl; tauto.
Qed.

(** C8. [get_scale_factor_to_meters] looks its argument up in the scale
    table: an argument that is no key of the table raises the "invalid
    units" [ValueError]; every member of [Units] is the key of exactly one
    entry, so on a member the call returns the scale of that entry and the
    error branch is not taken. *)
Theorem get_scale_factor_to_meters_spec :
  (forall v, (forall U, v = VUnits U -> scale_getitem U = None) ->
     get_scale_factor_to_meters v = raise (ValueError v)) /\
  (forall U, exists scale,
     filter (fun kv => Units.eqb U (fst kv)) UNIT_SCALE = [(U, scale)] /\
     get_scale_factor_to_meters (VUnits U) = ok scale) /\
  (forall U e, get_scale_factor_to_meters (VUnits U) <> raise e).
Proof.
  split; [|split].
  - intros v H; destruct v as [|n|s|u]; try reflexivity.
    simpl; now rewrite (H u eq_refl).
  - intros U; destruct U; eexists; split; vm_compute; reflexivity.
  - intros U e; destruct U; discriminate.
Qed.

Lemma get_scale_factor_to_meters_spec_witness :
  get_scale_factor_to_meters (VStr "m") = raise (ValueError (VStr "m")) /\
  get_scale_factor_to_meters VNone = raise (ValueError VNone).
Proof.
  destruct get_scale_factor_to_meters_spec as [H _].
  split; apply H; intros U E; discriminate E.
Defined.

(** ** Further properties of the lookups *)

(** The loop of [get_units_from_string] finds [U] exactly when [s] is
    listed for [U]. *)
Lemma first_alias_match_alias : forall s U,
  first_alias_match s UNITS_STRINGS = Some U <-> is_alias U s.
Proof.
  intros s U; rewrite first_alias_match_owners, is_alias_owners; split.
  - destruct (owners_in s UNITS_STRINGS) as [|V l]; simpl; [discriminate|].
    intros H; injection H as ->; now left.
  - intros H; now rewrite (owners_at_most_one s U H).
Qed.

(** The loop of [get_encoding_from_units] either resolves [s] to the unit
    it is listed for, or leaves the raw string. *)
Lemma maybe_sanitize_cases : forall s,
  (maybe_sanitize (VStr s) = VStr s /\ forall U, ~ is_alias U s) \/
  (exists U, is_alias U s /\ maybe_sanitize (VStr s) = VUnits U).
Proof.
  intros s; unfold maybe_sanitize; rewrite fold_sanitize_owners.
  destruct (owners_in s UNITS_STRINGS) as [|V l] eqn:E.
  - left; split; [reflexivity|].
    intros U HU; apply is_alias_owners in HU; now rewrite E in HU.
  - right; exists V.
    assert (HV : In V (owners_in s UNITS_STRINGS)) by (rewrite E; now left).
    split; [now apply is_alias_owners|].
    rewrite (owners_at_most_one s V HV) in E; injection E as <-; reflexivity.
Qed.

Lemma maybe_sanitize_alias : forall s U,
  maybe_sanitize (VStr s) = VUnits U <-> is_alias U s.
Proof.
  intros s U; split.
  - destruct (maybe_sanitize_cases s) as [[R _]|[V [HV R]]]; rewrite R;
      [discriminate | intros H; injection H as <-; exact HV].
  - intros HU; unfold maybe_sanitize; rewrite fold_sanitize_owners.
    rewrite (owners_at_most_one s U); [reflexivity | now apply is_alias_owners].
Qed.

(** A unit returned by [get_units_from_encoding] has the code as its own
    entry of the table. *)
Lemma decode_ok_entry : forall n U,
  get_units_from_encoding n = ok U -> In (Some U, n) UNITS_ENCODINGS.
Proof.
  intros n U H; unfold get_units_from_encoding in H.
  destruct (first_encoding_match n UNITS_ENCODINGS) as [V|] eqn:E;
    [|discriminate].
  injection H as ->.
  destruct (first_encoding_match_some _ _ _ E) as [[u|] [Hin Hk]];
    simpl in Hk; subst; [exact Hin|].
  apply (encodings_getitem_entry None) in Hin; vm_compute in Hin.
  injection Hin as <-; simpl; tauto.
Qed.

(** An encoding returned for a unit is its entry of the table. *)
Lemma encode_ok_entry : forall U n,
  get_encoding_from_units (VUnits U) = ok n -> In (Some U, n) UNITS_ENCODINGS.
Proof.
  intros U n H; apply (encodings_getitem_entry (Some U)).
  unfold get_encoding_from_units in H; simpl maybe_sanitize in H.
  simpl key_value; destruct (encodings_getitem (VUnits U));
    [injection H as ->; reflexivity | discriminate].
Qed.

(** The codes of the table are the integers from 0 to 14. *)
Lemma entry_range : forall key n,
  In (key, n) UNITS_ENCODINGS -> 0 <= n <= 14.
Proof.
  intros key n H; unfold UNITS_ENCODINGS in H; simpl In in H.
  repeat (destruct H as [H|H]; [injection H as <- <-; lia|]).
  contradiction.
Qed.


(** X2. A unit that [get_units_from_encoding] returns for [n] is encoded
    as [n] by [get_encoding_from_units]. *)
Theorem encode_decode : forall n U,
  get_units_from_encoding n = ok U ->
  get_encoding_from_units (VUnits U) = ok n /\
  (u <- get_units_from_encoding n ;; get_encoding_from_units (VUnits u)) = ok n.
Proof.
  intros n U H.
  pose proof (encode_entry U n (decode_ok_entry n U H)) as E.
  split; [exact E | rewrite H; exact E].
Qed.

Lemma encode_decode_witness :
  get_units_from_encoding 14 = ok Units.liters_per_sec_sqm /\
  get_encoding_from_units (VUnits Units.liters_per_sec_sqm) = ok 14.
Proof.
  assert (H : get_units_from_encoding 14 = ok Units.liters_per_sec_sqm)
    by reflexivity.
  split; [exact H | exact (proj1 (encode_decode 14 _ H))].
Defined.

(** X3. [get_units_from_encoding] returns a unit exactly on the codes from
    0 to 14; on every other integer it raises. *)
Theorem get_units_from_encoding_range : forall n,
  (exists U, get_units_from_encoding n = ok U) <-> 0 <= n <= 14.
Proof.
  intros n; split.
  - intros [U H]; exact (entry_range _ _ (decode_ok_entry n U H)).
  - intros H; rewrite <- (Z2Nat.id n) by lia.
    assert (K : (Z.to_nat n <= 14)%nat) by lia.
    destruct (Z.to_nat n) as [|k]; [eexists; reflexivity|].
    do 14 (destruct k as [|k]; [eexists; reflexivity|]).
    lia.
Qed.

(** X4. Whatever [get_encoding_from_units] returns can be decoded, and to
    the unit that was meant: the unit itself, the unit the string is listed
    for, and [Units.none] for [None]. An [int] is never encoded. *)
Theorem get_encoding_from_units_decodes : forall v n,
  get_encoding_from_units v = ok n ->
  exists U,
    get_units_from_encoding n = ok U /\
    match v with
    | VNone => U = Units.none
    | VUnits V => U = V
    | VStr s => is_alias U s
    | VInt _ => False
    end.
Proof.
  intros v n H; destruct v as [|k|s|V].
  - vm_compute in H; injection H as <-; exists Units.none; split; reflexivity.
  - discriminate H.
  - unfold get_encoding_from_units in H.
    destruct (maybe_sanitize_cases s) as [[R _]|[U [HU R]]]; rewrite R in H;
      [discriminate H|].
    exists U; split; [|exact HU].
    apply decode_entry, encode_ok_entry; exact H.
  - exists V; split; [|reflexivity].
    apply decode_entry, encode_ok_entry; exact H.
Qed.

Lemma get_encoding_from_units_decodes_witness :
  get_encoding_from_units (VStr "L/(s·m²)") = ok 14 /\
  exists U, get_units_from_encoding 14 = ok U /\ is_alias U "L/(s·m²)".
Proof.
  assert (H : get_encoding_from_units (VStr "L/(s·m²)") = ok 14) by reflexivity.
  split; [exact H | exact (get_encoding_from_units_decodes _ _ H)].
Defined.

(** X5. Two units with the same encoding are the same unit. *)
Theorem get_encoding_from_units_injective : forall U1 U2 n,
  get_encoding_from_units (VUnits U1) = ok n ->
  get_encoding_from_units (VUnits U2) = ok n ->
  U1 = U2.
Proof.
  intros U1 U2 n H1 H2.
  pose proof (decode_entry U1 n (encode_ok_entry U1 n H1)) as D1.
  pose proof (decode_entry U2 n (encode_ok_entry U2 n H2)) as D2.
  rewrite D1 in D2; now injection D2.
Qed.

Lemma get_encoding_from_units_injective_witness :
  get_encoding_from_units (VUnits Units.cbm) = ok 10 /\ Units.cbm = Units.cbm.
Proof.
  assert (H : get_encoding_from_units (VUnits Units.cbm) = ok 10) by reflexivity.
  split; [exact H | exact (get_encoding_from_units_injective _ _ 10 H H)].
Defined.

(** X6. Encoding any alias of [U], exactly as the table lists it, and
    decoding the result gives [U]. *)
Theorem alias_encode_decode : forall U s,
  is_alias U s ->
  (e <- get_encoding_from_units (VStr s) ;; get_units_from_encoding e) = ok U.
Proof.
  intros U s HU; apply maybe_sanitize_alias in HU.
  destruct (every_unit_encoded U) as [n Hn].
  assert (E : get_encoding_from_units (VStr s) = ok n).
  { pose proof (encode_entry U n Hn) as E; unfold get_encoding_from_units in *.
    rewrite HU; exact E. }
  rewrite E; simpl; exact (decode_entry U n Hn).
Qed.

Lemma alias_encode_decode_witness :
  is_alias Units.watts_per_sqm "W/m²" /\
  (e <- get_encoding_from_units (VStr "W/m²") ;; get_units_from_encoding e) =
    ok Units.watts_per_sqm.
Proof.
  assert (H : is_alias Units.watts_per_sqm "W/m²")
    by (apply is_alias_owners; vm_compute; now left).
  split; [exact H | exact (alias_encode_decode _ _ H)].
Defined.

(** X7. The [value] of every member of [Units], passed as a string, is
    encoded like the member itself. *)
Theorem value_encodes : forall U,
  get_encoding_from_units (VStr (Units.value U)) =
  get_encoding_from_units (VUnits U).
Proof. intros U; destruct U; vm_compute; reflexivity. Qed.

(** ** Lower-casing *)

Lemma lower_ascii_idem : forall c, lower_ascii (lower_ascii c) = lower_ascii c.
Proof. intros [[] [] [] [] [] [] [] []]; reflexivity. Qed.

(** A lowered byte is no second byte of an upper-case Latin-1 letter unless
    the byte itself was one. *)
Lemma upper_tail_lower_ascii : forall d,
  latin1_upper_tail (lower_ascii d) = true -> latin1_upper_tail d = true.
Proof. intros [[] [] [] [] [] [] [] []]; vm_compute; intros H; exact H. Qed.

(** The byte 0xC3. *)
Lemma lead_byte : forall c,
  (N_of_ascii c =? 195)%N = true ->
  lower_ascii c = c /\ latin1_upper_tail c = false.
Proof.
  intros [[] [] [] [] [] [] [] []]; vm_compute; intros H;
    try discriminate H; split; reflexivity.
Qed.

Lemma lower_ascii_lead : forall c,
  (N_of_ascii (lower_ascii c) =? 195)%N = (N_of_ascii c =? 195)%N.
Proof. intros [[] [] [] [] [] [] [] []]; reflexivity. Qed.

(** The second byte of a lowered Latin-1 letter is left alone by a further
    pass. *)
Lemma shifted_tail : forall d,
  latin1_upper_tail d = true ->
  latin1_upper_tail (ascii_of_N (N_of_ascii d + 32)) = false /\
  (N_of_ascii (ascii_of_N (N_of_ascii d + 32)) =? 195)%N = false /\
  lower_ascii (ascii_of_N (N_of_ascii d + 32)) = ascii_of_N (N_of_ascii d + 32).
Proof.
  intros [[] [] [] [] [] [] [] []]; vm_compute; intros H;
    try discriminate H; repeat split.
Qed.

Lemma str_lower_pair : forall c d s,
  str_lower (String c (String d s)) =
  if (N_of_ascii c =? 195)%N && latin1_upper_tail d
  then String c (String (ascii_of_N (N_of_ascii d + 32)) (str_lower s))
  else String (lower_ascii c) (str_lower (String d s)).
Proof. reflexivity. Qed.

(** Outside the two-byte rule, [str_lower] works byte by byte. *)
Lemma str_lower_byte : forall c t,
  (N_of_ascii c =? 195)%N && head_upper t = false ->
  str_lower (String c t) = String (lower_ascii c) (str_lower t).
Proof.
  intros c t H; destruct t as [|d t]; [reflexivity|].
  simpl in H; simpl str_lower at 1; now rewrite H.
Qed.

Lemma head_upper_str_lower : forall t,
  head_upper (str_lower t) = true -> head_upper t = true.
Proof.
  intros [|d [|e t]]; simpl; try discriminate.
  - apply upper_tail_lower_ascii.
  - destruct ((N_of_ascii d =? 195)%N && latin1_upper_tail e) eqn:C; simpl.
    + apply andb_true_iff in C; destruct C as [C _].
      destruct (lead_byte d C) as [_ F]; rewrite F; discriminate.
    + apply upper_tail_lower_ascii.
Qed.

(** Lowering twice is lowering once. *)
Lemma str_lower_idem_bounded : forall n s,
  (String.length s <= n)%nat -> str_lower (str_lower s) = str_lower s.
Proof.
  induction n as [|n IH]; intros s Hn.
  - destruct s; [reflexivity | simpl in Hn; lia].
  - destruct s as [|c [|d s]]; [reflexivity | |].
    + simpl; now rewrite lower_ascii_idem.
    + simpl String.length in Hn.
      destruct ((N_of_ascii c =? 195)%N && latin1_upper_tail d) eqn:C.
      * rewrite (str_lower_pair c d s), C.
        apply andb_true_iff in C; destruct C as [Cc Cd].
        destruct (lead_byte c Cc) as [Lc _].
        destruct (shifted_tail d Cd) as [T1 [T2 T3]].
        rewrite str_lower_byte by (simpl; rewrite T1; apply andb_false_r).
        rewrite Lc; f_equal.
        rewrite str_lower_byte by (rewrite T2; reflexivity).
        rewrite T3; f_equal; apply IH; lia.
      * assert (E : str_lower (String c (String d s)) =
                    String (lower_ascii c) (str_lower (String d s)))
          by (apply str_lower_byte; exact C).
        rewrite E, str_lower_byte.
        -- rewrite lower_ascii_idem; f_equal; apply IH; simpl; lia.
        -- rewrite lower_ascii_lead.
           destruct (head_upper (str_lower (String d s))) eqn:Hh;
             [|apply andb_false_r].
           apply head_upper_str_lower in Hh; simpl in Hh.
           rewrite Hh, andb_true_r in C; rewrite C; reflexivity.
Qed.

Lemma str_lower_idem : forall s, str_lower (str_lower s) = str_lower s.
Proof. intros s; apply (str_lower_idem_bounded (String.length s)); lia. Qed.


(** X9. No input reaches an alias that the table stores with an upper-case
    letter: [get_units_from_string] returns [Units.watts] only for "watt"
    and "watts" (in any case), and [Units.watts_per_sqm] and
    [Units.liters_per_sec_sqm] only for their long names. *)
Theorem upper_case_aliases_unreachable : forall s,
  (get_units_from_string (VStr s) = ok Units.watts <->
     str_lower s = "watt" \/ str_lower s = "watts") /\
  (get_units_from_string (VStr s) = ok Units.watts_per_sqm <->
     str_lower s = "watts per square meter") /\
  (get_units_from_string (VStr s) = ok Units.liters_per_sec_sqm <->
     str_lower s = "liters per second per square meter").
Proof.
  intros s.
  assert (A : forall U a, is_alias U a -> str_lower s = a ->
              get_units_from_string (VStr s) = ok U).
  { intros U a HU E; unfold get_units_from_string; rewrite E.
    apply first_alias_match_alias in HU; now rewrite HU. }
  assert (L : forall a, str_lower s = a -> str_lower a = a)
    by (intros a <-; apply str_lower_idem).
  assert (O : forall U, get_units_from_string (VStr s) = ok U ->
              owners_in (str_lower s) UNITS_STRINGS = [U]).
  { intros U H; unfold get_units_from_string in H.
    destruct (first_alias_match (str_lower s) UNITS_STRINGS) as [V|] eqn:E;
      [|discriminate H].
    injection H as ->; apply owners_at_most_one, is_alias_owners.
    now apply first_alias_match_alias. }
  assert (I : forall U, get_units_from_string (VStr s) = ok U ->
              exists l, In (U, l) UNITS_STRINGS /\ In (str_lower s) l).
  { intros U H; apply in_owners_in; rewrite (O U H); now left. }
  split; [|split]; split.
  - intros H; destruct (I _ H) as [l [Hl Hs]].
    unfold UNITS_STRINGS in Hl; simpl In in Hl.
    repeat (destruct Hl as [Hl|Hl]; [try discriminate Hl|]);
      [|contradiction].
    injection Hl as <-; simpl in Hs.
    destruct Hs as [Hs|[Hs|[Hs|[]]]]; [|left; now symmetry|right; now symmetry].
    symmetry in Hs; apply L in Hs; discriminate Hs.
  - intros [E|E]; [apply (A _ "watt") | apply (A _ "watts")]; try exact E;
      apply is_alias_owners; vm_compute; now left.
  - intros H; destruct (I _ H) as [l [Hl Hs]].
    unfold UNITS_STRINGS in Hl; simpl In in Hl.
    repeat (destruct Hl as [Hl|Hl]; [try discriminate Hl|]);
      [|contradiction].
    injection Hl as <-; simpl in Hs.
    destruct Hs as [Hs|[Hs|[]]]; [|now symmetry].
    symmetry in Hs; apply L in Hs; discriminate Hs.
  - intros E; apply (A _ "watts per square meter"); try exact E.
    apply is_alias_owners; vm_compute; now left.
  - intros H; destruct (I _ H) as [l [Hl Hs]].
    unfold UNITS_STRINGS in Hl; simpl In in Hl.
    repeat (destruct Hl as [Hl|Hl]; [try discriminate Hl|]);
      [|contradiction].
    injection Hl as <-; simpl in Hs.
    destruct Hs as [Hs|[Hs|[]]]; [|now symmetry].
    symmetry in Hs; apply L in Hs; discriminate Hs.
  - intros E; apply (A _ "liters per second per square meter"); try exact E.
    apply is_alias_owners; vm_compute; now left.
Qed.


(** ** Further properties of the scale factors *)


(** Between two units a scale factor is always returned. *)
Lemma get_scale_factor_units_ok : forall A B,
  exists x, get_scale_factor (VUnits A) (VUnits B) = ok x.
Proof. intros A B; destruct A, B; eexists; vm_compute; reflexivity. Qed.

(** X11. [get_scale_factor] raises [ValueError] for its first argument
    that is no member of [Units], the left one being looked up first;
    between two members it never raises, and the factor lies between the
    factor from millimetres to miles and the factor from miles to
    millimetres, which are the two extremes. *)
Theorem get_scale_factor_outcome :
  (forall v w,
     match v, w with
     | VUnits A, VUnits B =>
         exists x, get_scale_factor v w = ok x /\
           (min_scale_factor <=? x)%float = true /\
           (x <=? max_scale_factor)%float = true
     | VUnits _, _ => get_scale_factor v w = raise (ValueError w)
     | _, _ => get_scale_factor v w = raise (ValueError v)
     end) /\
  get_scale_factor (VUnits Units.mm) (VUnits Units.miles) =
    ok min_scale_factor /\
  get_scale_factor (VUnits Units.miles) (VUnits Units.mm) =
    ok max_scale_factor.
Proof.
  split; [|split; vm_compute; reflexivity].
  intros v w; destruct v as [| | |A]; try reflexivity.
  destruct w as [| | |B]; try (destruct A; reflexivity).
  destruct A, B; eexists; (split; [vm_compute; reflexivity|]);
    split; vm_compute; reflexivity.
Qed.

(** X12. The factor from [A] to [B] compares with 1.0 as the scale of [A]
    compares with the scale of [B]: it is 1.0 exactly when the two scales
    are equal, below 1.0 exactly when the scale of [A] is the smaller. *)
Theorem get_scale_factor_compare_one : forall A B : Units.t,
  exists a b x,
    get_scale_factor_to_meters (VUnits A) = ok a /\
    get_scale_factor_to_meters (VUnits B) = ok b /\
    get_scale_factor (VUnits A) (VUnits B) = ok x /\
    (x ?= 1.0)%float = (to_float a ?= to_float b)%float.
Proof.
  intros A B; destruct A, B; eexists _, _, _;
    (split; [vm_compute; reflexivity|]);
    (split; [vm_compute; reflexivity|]);
    (split; [vm_compute; reflexivity|]);
    vm_compute; reflexivity.
Qed.

(** X13. The factor from a unit to [Units.m] is the scale of the unit, as
    [get_scale_factor_to_meters] returns it. *)
Theorem get_scale_factor_to_base : forall U : Units.t,
  exists a,
    get_scale_factor_to_meters (VUnits U) = ok a /\
    get_scale_factor (VUnits U) (VUnits Units.m) = ok (to_float a).
Proof.
  intros U; destruct U; eexists; split; vm_compute; reflexivity.
Qed.

(** X14. [get_scale_factor_from_string] returns a factor exactly when both
    arguments are accepted by [get_units_from_string], and the factor is
    the one [get_scale_factor] gives for the two units. *)
Theorem get_scale_factor_from_string_ok : forall v w,
  ((exists x, get_scale_factor_from_string v w = ok x) <->
   (exists A, get_units_from_string v = ok A) /\
   (exists B, get_units_from_string w = ok B)) /\
  (forall A B, get_units_from_string v = ok A ->
     get_units_from_string w = ok B ->
     get_scale_factor_from_string v w =
     get_scale_factor (VUnits A) (VUnits B)).
Proof.
  intros v w; unfold get_scale_factor_from_string; split; [split|].
  - intros [x H].
    destruct (get_units_from_string v) as [A|]; [|discriminate H].
    destruct (get_units_from_string w) as [B|]; [|discriminate H].
    split; eexists; reflexivity.
  - intros [[A HA] [B HB]]; rewrite HA, HB; simpl.
    apply get_scale_factor_units_ok.
  - intros A B HA HB; rewrite HA, HB; reflexivity.
Qed.

Lemma get_scale_factor_from_string_ok_witness :
  get_scale_factor_from_string (VStr "Feet") (VStr "INCHES") =
  get_scale_factor (VUnits Units.feet) (VUnits Units.inches).
Proof.
  apply (proj2 (get_scale_factor_from_string_ok (VStr "Feet") (VStr "INCHES")));
    reflexivity.
Defined.



(** X16. Between a name and itself the factor is 1.0, for every name
    [get_units_from_string] accepts. *)
Theorem get_scale_factor_from_string_same : forall v U,
  get_units_from_string v = ok U ->
  get_scale_factor_from_string v v = ok 1.0%float.
Proof.
  intros v U H; unfold get_scale_factor_from_string; rewrite H; simpl.
  destruct U; vm_compute; reflexivity.
Qed.

Lemma get_scale_factor_from_string_same_witness :
  get_units_from_string (VStr "Kilometres") = ok Units.km /\
  get_scale_factor_from_string (VStr "Kilometres") (VStr "Kilometres") =
    ok 1.0%float.
Proof.
  assert (H : get_units_from_string (VStr "Kilometres") = ok Units.km)
    by reflexivity.
  split; [exact H | exact (get_scale_factor_from_string_same _ _ H)].
Defined.
